(** * go-godin/log: a leveled, structured logging facade

    Shallow embedding of the package [log] and of what it uses from its
    collaborators:

    - [src/log.go]            the facade without tracing     (module [Plain])
    - [src/unnamed/part_002]  the facade with tracing        (module [Traced])
    - [src/unnamed/part_001]  the package-level logger [std] (module [Std])

    Strings are sequences of bytes ([string]); a variadic [...interface{}]
    is a [list value]; the standard output and the tracing system are
    fields of an explicit [World] threaded through every call. *)

From Stdlib Require Import String Ascii List ZArith Arith Bool Lia DecimalString.
From Equations Require Import Equations.
Import ListNotations.
Local Open Scope string_scope.
Local Open Scope list_scope.

(** ** Values of type [interface{}] *)

(** The dynamic values the package hands around as key/value arguments. *)
#[warnings="-register-all"] Inductive value : Type :=
| VString (s : string)
| VInt (n : Z)
| VBool (b : bool)
| VError (msg : string)
| VSlice (elems : list value).

(** [fmt.Sprint] of one operand. *)
Fixpoint Sprint (v : value) : string :=
  match v with
  | VString s => s
  | VInt n => NilZero.string_of_int (Z.to_int n)
  | VBool b => if b then "true" else "false"
  | VError msg => msg
  | VSlice elems =>
      let fix join (l : list value) : string :=
        match l with
        | [] => ""
        | [x] => Sprint x
        | x :: rest => (Sprint x ++ " " ++ join rest)%string
        end in
      ("[" ++ join elems ++ "]")%string
  end.

(** ** Package [level] *)

(** Severities, ordered Debug < Info < Warning < Error. *)
Inductive Severity : Type := SevDebug | SevInfo | SevWarning | SevError.

Definition rank (s : Severity) : nat :=
  match s with
  | SevDebug => 0
  | SevInfo => 1
  | SevWarning => 2
  | SevError => 3
  end.

Definition Severity_eqb (a b : Severity) : bool := Nat.eqb (rank a) (rank b).

Module level.

(** Modelled from the spec: the package [github.com/go-godin/log/level]
    is not among the sources.  A LevelFilter is derived from a requested
    minimum Severity, or is "allow all" / "allow none"; a record is
    accepted iff its Severity is at least the filter's minimum. *)
Inductive Option : Type :=
| AllowMin (minimum : Severity)
| AllowEvery
| AllowNothing.

Definition AllowDebug : Option := AllowMin SevDebug.
Definition AllowInfo : Option := AllowMin SevInfo.
Definition AllowWarn : Option := AllowMin SevWarning.
Definition AllowError : Option := AllowMin SevError.
Definition AllowAll : Option := AllowEvery.
Definition AllowNone : Option := AllowNothing.

(** Modelled from the spec: the acceptance test of a LevelFilter,
    "accepted iff its Severity >= the filter's minimum". *)
Definition accepts (o : Option) (s : Severity) : bool :=
  match o with
  | AllowMin m => Nat.leb (rank m) (rank s)
  | AllowEvery => true
  | AllowNothing => false
  end.

End level.

(** ** Loggers of go-kit, filters and leveled loggers *)

(** What reaches the encoder: the severity the record was submitted with
    (none for a plain [Log]) and its ordered key/value sequence. *)
Record Entry : Type := mkEntry {
  entry_level : option Severity;
  entry_keyvals : list value
}.

(** The values of the interface [log.Logger] the package builds. *)
Inductive Logger : Type :=
| JSONLogger
    (* log.NewJSONLogger(log.NewSyncWriter(os.Stdout)) *)
| FilterLogger (next : Logger) (allowed : level.Option)
    (* level.NewFilter(next, allowed) *)
| WithLogger (next : Logger) (keyvals : list value)
    (* log.With(next, keyvals...) *)
| LevelLogger (sev : Severity) (next : Logger).
    (* level.Debug(next), level.Info(next), level.Warn(next), level.Error(next) *)

(** ** The world: environment, standard output, tracing system, clock *)

Definition Span : Type := nat.

Inductive SpanEvent : Type :=
| Annotate (time : Z) (text : string)
| Tag (key val : string).

Record World : Type := mkWorld {
  environ : string -> option string;
  stdout : list Entry;
  spans : list (Span * SpanEvent);
  clock : Z
}.

Definition emit (e : Entry) (w : World) : World :=
  {| environ := environ w;
     stdout := stdout w ++ [e];
     spans := spans w;
     clock := clock w |}.

Definition record_span (sp : Span) (ev : SpanEvent) (w : World) : World :=
  {| environ := environ w;
     stdout := stdout w;
     spans := spans w ++ [(sp, ev)];
     clock := clock w |}.

(** A call either returns a result and the next world, or panics. *)
Definition M (A : Type) : Type := World -> option (A * World).

Definition ret {A : Type} (a : A) : M A := fun w => Some (a, w).

Definition bind {A B : Type} (m : M A) (k : A -> M B) : M B :=
  fun w => match m w with
           | Some (a, w') => k a w'
           | None => None
           end.

Definition panic {A : Type} : M A := fun _ => None.

Definition modify (f : World -> World) : M unit := fun w => Some (tt, f w).

Definition gets {A : Type} (f : World -> A) : M A := fun w => Some (f w, w).

Declare Scope go_scope.
Delimit Scope go_scope with go.
Notation "x <- m ;; k" := (bind m (fun x => k))
  (at level 61, m at next level, right associativity) : go_scope.
Notation "m ;; k" := (bind m (fun _ => k))
  (at level 61, right associativity) : go_scope.
Local Open Scope go_scope.

(** [os.Getenv]: the value of the variable, empty when it is unset. *)
Definition Getenv (key : string) : M string :=
  gets (fun w => match environ w key with Some v => v | None => "" end).

(** ** Package [log] of go-kit *)

Module kitlog.

(** Modelled from the spec: the method [Log] of a filter and of a leveled
    logger, which belong to the package [level] that is not among the
    sources.  A leveled logger submits the record with its severity; a
    filter lets a record through when its severity is accepted, and does
    not gate a record that carries none.  The other two cases are go-kit's:
    a logger made by [With] puts its bound key/values in front, the JSON
    logger writes the record.  The filler that go-kit and the encoder put
    after a LAST key without value is not part of the record here: it
    comes after every pair and changes none. *)
Fixpoint deliver (l : Logger) (sev : option Severity) (keyvals : list value)
                 (w : World) : World :=
  match l with
  | JSONLogger => emit (mkEntry sev keyvals) w
  | FilterLogger next allowed =>
      match sev with
      | Some s => if level.accepts allowed s
                  then deliver next sev keyvals w
                  else w
      | None => deliver next sev keyvals w
      end
  | WithLogger next bound => deliver next sev (bound ++ keyvals) w
  | LevelLogger s next => deliver next (Some s) keyvals w
  end.

Definition Log (l : Logger) (keyvals : list value) : M unit :=
  modify (deliver l None keyvals).

Definition NewJSONLogger : Logger := JSONLogger.

(** [log.ErrMissingValue], which go-kit puts after a key that has no value. *)
Definition ErrMissingValue : value := VError "(MISSING)".

(** [if len(kvs)%2 != 0 { kvs = append(kvs, ErrMissingValue) }] *)
Definition fill_missing (kvs : list value) : list value :=
  if Nat.odd (length kvs) then kvs ++ [ErrMissingValue] else kvs.

(** [log.With]: no key/values give the logger back; key/values given to
    a logger that was itself made by [With] extend its bound sequence, and
    a key left without value gets [ErrMissingValue].  go-kit tests the
    length of the whole bound sequence; a logger made by [With] holds
    complete pairs, so that is the parity of the key/values given, which
    is what is tested here. *)
Definition With (l : Logger) (keyvals : list value) : Logger :=
  match keyvals with
  | [] => l
  | _ :: _ =>
      let kvs := fill_missing keyvals in
      match l with
      | WithLogger next bound => WithLogger next (bound ++ kvs)
      | _ => WithLogger l kvs
      end
  end.

End kitlog.

Module level_loggers.

(** Modelled from the spec: the constructors of package [level] that are
    not among the sources; a leveled logger submits to its sink "gated by
    severity", the sink enforcing the configured LevelFilter. *)
Definition NewFilter (next : Logger) (o : level.Option) : Logger :=
  FilterLogger next o.
Definition Debug (l : Logger) : Logger := LevelLogger SevDebug l.
Definition Info (l : Logger) : Logger := LevelLogger SevInfo l.
Definition Warn (l : Logger) : Logger := LevelLogger SevWarning l.
Definition Error (l : Logger) : Logger := LevelLogger SevError l.

End level_loggers.

(** ** Constants of package [log] *)

Definition LevelDebug : string := "debug".
Definition LevelInfo : string := "info".
Definition LevelWarning : string := "warning".
Definition LevelError : string := "error".
Definition MessageKey : string := "message".
Definition EnvironmentVariable : string := "LOG_LEVEL".

(** ** [strings.ToLower] *)

(** The bytes 'A'..'Z' become 'a'..'z', every other byte stays. *)
Definition lower_byte (c : ascii) : ascii :=
  let n := nat_of_ascii c in
  if ((65 <=? n)%nat && (n <=? 90)%nat)%bool then ascii_of_nat (n + 32) else c.

(** [strings.ToLower].  On a string of ASCII bytes Go lowers the bytes
    'A'..'Z' and keeps the others.  On any other string it decodes the
    UTF-8 runes and lowers each with [unicode.ToLower]; two runes outside
    ASCII have their lower case inside ASCII: U+0130 (the bytes 196 176)
    has 'i', and U+212A (the bytes 226 132 170) has 'k'.  Both are lowered
    here, as are the ASCII letters around them.  Every other rune outside
    ASCII, and every byte that is not valid UTF-8, leaves Go as bytes
    outside ASCII (its lower case, or U+FFFD); here the bytes of those
    runes stay as they are given.  So the result is made of ASCII bytes
    exactly when Go's is, and then it is Go's: a comparison with a level
    name, which is all the package does with the result, is Go's. *)
Fixpoint ToLower (s : string) : string :=
  match s with
  | EmptyString => EmptyString
  | String c rest =>
      let plain := String (lower_byte c) (ToLower rest) in
      if Ascii.eqb c "196"%char then
        match rest with
        | String b rest' =>
            if Ascii.eqb b "176"%char
            then String "i"%char (ToLower rest')
            else plain
        | EmptyString => plain
        end
      else if Ascii.eqb c "226"%char then
        match rest with
        | String b1 (String b2 rest') =>
            if (Ascii.eqb b1 "132"%char && Ascii.eqb b2 "170"%char)%bool
            then String "k"%char (ToLower rest')
            else plain
        | _ => plain
        end
      else plain
  end.

(** ** Go's [error] and [context.Context] *)

(** An [error] value: [None] is [nil], [Some msg] an error with that text. *)
Definition error : Type := option string.

Definition Errorf (msg : string) : error := Some msg.

Definition error_value (msg : string) : value := VError msg.

(** What the package reads of a [context.Context]: the span it carries. *)
Record Context : Type := mkContext { ctx_span : option Span }.

(** [zipkin.SpanFromContext]. *)
Definition SpanFromContext (ctx : Context) : option Span := ctx_span ctx.

(** [keyvals[i]]: an index out of range panics. *)
Definition index (keyvals : list value) (i : nat) : M value :=
  match nth_error keyvals i with
  | Some v => ret v
  | None => panic
  end.

(** ** [src/unnamed/part_002]: the facade with tracing *)

Module Traced.

Record Log : Type := mkLog {
  kitLogger : Logger;
  span : option Span
}.

(** [evaluateLogLevel] maps a level name to a level Option; an unknown
    name enables all levels and reports an error. *)
Definition evaluateLogLevel (logLevel : string) : level.Option * error :=
  let logLevel := ToLower logLevel in
  if String.eqb logLevel LevelDebug then (level.AllowDebug, None)
  else if String.eqb logLevel LevelInfo then (level.AllowInfo, None)
  else if String.eqb logLevel LevelWarning then (level.AllowWarn, None)
  else if String.eqb logLevel LevelError then (level.AllowError, None)
  else (level.AllowAll, Errorf "no log-level passed, falling back to debug").

(** [mergeKeyValues] puts the message pair before the key/values. *)
Definition mergeKeyValues (l : Log) (message : string) (keyvals : list value)
  : list value :=
  let list : list value := [] in
  let levelData : Datatypes.list value := [] in
  let levelData :=
    if negb (String.eqb message "")
    then (levelData ++ [VString MessageKey]) ++ [VString message]
    else levelData in
  let list := list ++ levelData in
  let list := list ++ keyvals in
  list.

(** The loop of [handleTrace]:
    [for i := 0; i < len(keyvals); i += 2 { if ... { break }; Tag(...) }] *)
Equations? tagLoop (sp : Span) (keyvals : list value) (i : nat) (w : World)
  : option (unit * World) by wf (length keyvals - i) lt :=
  tagLoop sp keyvals i w with lt_dec i (length keyvals) => {
    | right _ => Some (tt, w)
    | left _ =>
        if ((length keyvals <=? i)%nat || (length keyvals <=? i + 1)%nat)%bool
        then Some (tt, w)
        else
          match index keyvals i w with
          | Some (k, w1) =>
              match index keyvals (i + 1) w1 with
              | Some (v, w2) =>
                  tagLoop sp keyvals (i + 2)
                          (record_span sp (Tag (Sprint k) (Sprint v)) w2)
              | None => None
              end
          | None => None
          end }.
Proof. lia. Qed.

Definition handleTrace (l : Log) (message : string) (keyvals : list value)
  : M unit :=
  match span l with
  | Some sp =>
      (if negb (String.eqb message "")
       then now <- gets clock ;;
            modify (record_span sp (Annotate now message))
       else ret tt) ;;
      tagLoop sp keyvals 0
  | None => ret tt
  end.

(** [Log] redirects to the go-kit logger. *)
Definition Log_Log (l : Log) (keyvals : list value) : M unit :=
  handleTrace l "" keyvals ;;
  kitlog.Log (kitLogger l) keyvals.

Definition Debug (l : Log) (message : string) (keyvals : list value) : M unit :=
  kitlog.Log (level_loggers.Debug (kitLogger l))
             (mergeKeyValues l message keyvals).

Definition Info (l : Log) (message : string) (keyvals : list value) : M unit :=
  handleTrace l message keyvals ;;
  kitlog.Log (level_loggers.Info (kitLogger l))
             (mergeKeyValues l message keyvals).

Definition Warning (l : Log) (message : string) (keyvals : list value) : M unit :=
  handleTrace l message keyvals ;;
  kitlog.Log (level_loggers.Warn (kitLogger l))
             (mergeKeyValues l message keyvals).

Definition Error (l : Log) (message : string) (keyvals : list value) : M unit :=
  handleTrace l message keyvals ;;
  kitlog.Log (level_loggers.Error (kitLogger l))
             (mergeKeyValues l message keyvals).

(** [NewLogger] creates a leveled Log; the error of [evaluateLogLevel]
    is logged as a warning through the new logger. *)
Definition NewLogger (logLevel : string) : M Log :=
  let '(levelOpt, err) := evaluateLogLevel logLevel in
  let kitLogger := kitlog.NewJSONLogger in
  let kitLogger := level_loggers.NewFilter kitLogger levelOpt in
  let log := {| kitLogger := kitLogger; span := None |} in
  match err with
  | Some e => Warning log "" [VString "err"; error_value e] ;; ret log
  | None => ret log
  end.

Definition NewLoggerFromEnv : M Log :=
  levelStr <- Getenv EnvironmentVariable ;;
  NewLogger levelStr.

(** The receiver of [SetLevel] as the method leaves it: a filter for the
    new level wrapped around the receiver's logger. *)
Definition SetLevel_receiver (l : Log) (logLevel : string) : Log :=
  let '(lvl, err) := evaluateLogLevel logLevel in
  let lvl := match err with
             | Some _ => level.AllowInfo
             | None => lvl
             end in
  {| kitLogger := level_loggers.NewFilter (kitLogger l) lvl; span := span l |}.

(** [func (l Log) SetLevel(logLevel string)]: the receiver is passed by
    value, the method assigns to its own copy and returns nothing. *)
Definition SetLevel (l : Log) (logLevel : string) : M unit :=
  let l := SetLevel_receiver l logLevel in
  ret tt.

Definition WithTrace (l : Log) (ctx : Context) : Log :=
  match SpanFromContext ctx with
  | Some span => {| kitLogger := kitLogger l; span := Some span |}
  | None => {| kitLogger := kitLogger l; span := None |}
  end.

Definition With (l : Log) (keyvals : list value) : Log :=
  if (length keyvals =? 0)%nat then l
  else
    let kitLogger' := kitlog.With (kitLogger l) keyvals in
    {| kitLogger := kitLogger'; span := span l |}.

End Traced.

(** ** [src/log.go]: the facade without tracing *)

Module Plain.

Record Log : Type := mkLog { kitLogger : Logger }.

Definition evaluateLogLevel (logLevel : string) : level.Option :=
  let logLevel := ToLower logLevel in
  if String.eqb logLevel LevelDebug then level.AllowDebug
  else if String.eqb logLevel LevelInfo then level.AllowInfo
  else if String.eqb logLevel LevelWarning then level.AllowWarn
  else if String.eqb logLevel LevelError then level.AllowError
  else level.AllowAll.

Definition mergeKeyValues (l : Log) (message : string) (keyvals : list value)
  : list value :=
  let list : list value := [] in
  let levelData : Datatypes.list value := [] in
  let levelData :=
    if negb (String.eqb message "")
    then (levelData ++ [VString MessageKey]) ++ [VString message]
    else levelData in
  let list := list ++ levelData in
  let list := list ++ keyvals in
  list.

Definition NewLogger (logLevel : string) : Log :=
  let levelOpt := evaluateLogLevel logLevel in
  let kitLogger := kitlog.NewJSONLogger in
  let kitLogger := level_loggers.NewFilter kitLogger levelOpt in
  {| kitLogger := kitLogger |}.

Definition NewLoggerFromEnv : M Log :=
  levelStr <- Getenv EnvironmentVariable ;;
  ret (NewLogger levelStr).

(** [l.kitLogger.Log(keyvals)]: the slice is passed as ONE argument of
    the variadic [Log], not spread with [keyvals...]. *)
Definition Log_Log (l : Log) (keyvals : list value) : M unit :=
  kitlog.Log (kitLogger l) [VSlice keyvals].

Definition Debug (l : Log) (message : string) (keyvals : list value) : M unit :=
  kitlog.Log (level_loggers.Debug (kitLogger l))
             (mergeKeyValues l message keyvals).

Definition Info (l : Log) (message : string) (keyvals : list value) : M unit :=
  kitlog.Log (level_loggers.Info (kitLogger l))
             (mergeKeyValues l message keyvals).

Definition Warning (l : Log) (message : string) (keyvals : list value) : M unit :=
  kitlog.Log (level_loggers.Warn (kitLogger l))
             (mergeKeyValues l message keyvals).

Definition Error (l : Log) (message : string) (keyvals : list value) : M unit :=
  kitlog.Log (level_loggers.Error (kitLogger l))
             (mergeKeyValues l message keyvals).

End Plain.

(** ** [src/unnamed/part_001]: the package-level logger *)

Module Std.

(** The package-level variables. *)
Record Package : Type := mkPackage { std : Traced.Log }.

(** [var std = NewLogger("info")], run when the package is initialised. *)
Definition init : M Package :=
  l <- Traced.NewLogger "info" ;;
  ret {| std := l |}.

(** Each function calls the method on [std]; the methods have value
    receivers, so they get a copy and [std] stays as it is. *)
Definition SetLevel (level : string) (g : Package) : M Package :=
  Traced.SetLevel (std g) level ;;
  ret g.

Definition Info (message : string) (keyvals : list value) (g : Package)
  : M Package :=
  Traced.Info (std g) message keyvals ;;
  ret g.

Definition Debug (message : string) (keyvals : list value) (g : Package)
  : M Package :=
  Traced.Debug (std g) message keyvals ;;
  ret g.

Definition Warning (message : string) (keyvals : list value) (g : Package)
  : M Package :=
  Traced.Warning (std g) message keyvals ;;
  ret g.

Definition Error (message : string) (keyvals : list value) (g : Package)
  : M Package :=
  Traced.Error (std g) message keyvals ;;
  ret g.

End Std.

(** ** [src/examples/main.go], [src/unnamed/part_000]: the example program *)

(** The two files have the same body; [Main] runs it against the package
    with tracing, [MainPlain] against the package of [src/log.go]. *)
Module Main.

Definition main : M unit :=
  logger <- Traced.NewLoggerFromEnv ;;
  Traced.Debug logger "test" [VString "foo"; VString "bar"] ;;
  Traced.Info logger "test" [VString "foo"; VString "bar"] ;;
  Traced.Warning logger "test" [VString "foo"; VString "bar"] ;;
  Traced.Error logger "test" [VString "foo"; VString "bar"].

End Main.

Module MainPlain.

Definition main : M unit :=
  logger <- Plain.NewLoggerFromEnv ;;
  Plain.Debug logger "test" [VString "foo"; VString "bar"] ;;
  Plain.Info logger "test" [VString "foo"; VString "bar"] ;;
  Plain.Warning logger "test" [VString "foo"; VString "bar"] ;;
  Plain.Error logger "test" [VString "foo"; VString "bar"].

End MainPlain.

(** * Definitions used to state the properties *)

(** The spec's words: a name is recognised in any case.  [upper_byte] and
    [spec_case_variant] say what "a case variant of" a lower-case name is,
    one byte at a time, without going through [ToLower]. *)
Definition is_lower_letter (c : ascii) : bool :=
  let n := nat_of_ascii c in ((97 <=? n)%nat && (n <=? 122)%nat)%bool.

Definition upper_byte (c : ascii) : ascii :=
  if is_lower_letter c then ascii_of_nat (nat_of_ascii c - 32) else c.

Definition same_letter (c d : ascii) : bool :=
  (Ascii.eqb c d || Ascii.eqb c (upper_byte d))%bool.

Fixpoint spec_case_variant (s name : string) : bool :=
  match s, name with
  | EmptyString, EmptyString => true
  | String c s', String d name' => (same_letter c d && spec_case_variant s' name')%bool
  | _, _ => false
  end.

(** The spec's resolver: the four names in any case give their filter and
    no error, every other string gives "allow all" and the error. *)
Definition spec_resolve (name : string) : level.Option * error :=
  if spec_case_variant name "debug" then (level.AllowDebug, None)
  else if spec_case_variant name "info" then (level.AllowInfo, None)
  else if spec_case_variant name "warning" then (level.AllowWarn, None)
  else if spec_case_variant name "error" then (level.AllowError, None)
  else (level.AllowAll, Some "no log-level passed, falling back to debug").

(** A string of ASCII bytes. *)
Definition is_ascii_byte (c : ascii) : bool := (nat_of_ascii c <? 128)%nat.

Fixpoint isASCII (s : string) : bool :=
  match s with
  | EmptyString => true
  | String c rest => (is_ascii_byte c && isASCII rest)%bool
  end.

(** Case variants with U+0130: a letter of the name is matched by itself,
    by its ASCII capital, or, when it is an 'i', by the two bytes 196 176
    of U+0130, the capital I with a dot above. *)
Fixpoint spec_case_variant_dotted (s name : string) {struct name} : bool :=
  match name with
  | EmptyString =>
      match s with
      | EmptyString => true
      | String _ _ => false
      end
  | String d name' =>
      match s with
      | EmptyString => false
      | String c s' =>
          ((same_letter c d && spec_case_variant_dotted s' name')
           || (Ascii.eqb d "i"%char && Ascii.eqb c "196"%char &&
               match s' with
               | String b s'' =>
                   Ascii.eqb b "176"%char && spec_case_variant_dotted s'' name'
               | EmptyString => false
               end))%bool
      end
  end.

(** Names made of lower-case letters other than 'k'. *)
Fixpoint level_letters (name : string) : bool :=
  match name with
  | EmptyString => true
  | String d name' =>
      (is_lower_letter d && negb (Ascii.eqb d "k"%char) && level_letters name')%bool
  end.

(** The resolver of the spec, with the case variants that have U+0130. *)
Definition spec_resolve_dotted (name : string) : level.Option * error :=
  if spec_case_variant_dotted name "debug" then (level.AllowDebug, None)
  else if spec_case_variant_dotted name "info" then (level.AllowInfo, None)
  else if spec_case_variant_dotted name "warning" then (level.AllowWarn, None)
  else if spec_case_variant_dotted name "error" then (level.AllowError, None)
  else (level.AllowAll, Some "no log-level passed, falling back to debug").

(** The five bytes of "INFO" written with U+0130 for its I. *)
Definition dotted_INFO : string := String "196"%char (String "176"%char "NFO").

(** The world after the tracing system has taken the events [evs]. *)
Definition add_spans (evs : list (Span * SpanEvent)) (w : World) : World :=
  {| environ := environ w;
     stdout := stdout w;
     spans := spans w ++ evs;
     clock := clock w |}.

(** What a delivery appends to the standard output depends on the logger,
    the severity and the key/values, not on the world. *)
Fixpoint written (l : Logger) (sev : option Severity) (keyvals : list value)
  : list Entry :=
  match l with
  | JSONLogger => [mkEntry sev keyvals]
  | FilterLogger next allowed =>
      match sev with
      | Some s => if level.accepts allowed s then written next sev keyvals else []
      | None => written next sev keyvals
      end
  | WithLogger next bound => written next sev (bound ++ keyvals)
  | LevelLogger s next => written next (Some s) keyvals
  end.

(** The complete (key, value) pairs of a flat sequence, from the front. *)
Fixpoint complete_pairs (keyvals : list value) : list (value * value) :=
  match keyvals with
  | k :: v :: rest => (k, v) :: complete_pairs rest
  | _ => []
  end.

(** One [Tag] on the span for each complete pair, with the string forms
    of its key and value. *)
Definition tag_events (sp : Span) (keyvals : list value) : list (Span * SpanEvent) :=
  map (fun kv => (sp, Tag (Sprint (fst kv)) (Sprint (snd kv)))) (complete_pairs keyvals).

(** The events [handleTrace] records on the receiver's span. *)
Definition trace_events (l : Traced.Log) (message : string) (keyvals : list value)
                        (now : Z) : list (Span * SpanEvent) :=
  match Traced.span l with
  | Some sp =>
      (if negb (String.eqb message "") then [(sp, Annotate now message)] else [])
      ++ tag_events sp keyvals
  | None => []
  end.

(** The method of a severity. *)
Definition severity_call (s : Severity)
  : Traced.Log -> string -> list value -> M unit :=
  match s with
  | SevDebug => Traced.Debug
  | SevInfo => Traced.Info
  | SevWarning => Traced.Warning
  | SevError => Traced.Error
  end.

(** [Debug] is the one severity method that does not call [handleTrace]. *)
Definition enriches (s : Severity) : bool :=
  match s with
  | SevDebug => false
  | _ => true
  end.

(** The key/values bound into a logger, in the order they are written. *)
Fixpoint bound_fields (l : Logger) : list value :=
  match l with
  | JSONLogger => []
  | FilterLogger next _ => bound_fields next
  | WithLogger next bound => bound_fields next ++ bound
  | LevelLogger _ next => bound_fields next
  end.

(** The handles a program can hold: made by [NewLogger], then derived by
    [With] and [WithTrace].  [Handle o bound l]: [l] filters with [o] and
    carries the fields [bound], which are the key/values given to [With],
    each odd sequence completed by [ErrMissingValue]. *)
Inductive Handle : level.Option -> list value -> Traced.Log -> Prop :=
| Handle_new (logLevel : string) (w w' : World) (l : Traced.Log) :
    Traced.NewLogger logLevel w = Some (l, w') ->
    Handle (fst (Traced.evaluateLogLevel logLevel)) [] l
| Handle_with (o : level.Option) (bound keyvals : list value) (l : Traced.Log) :
    Handle o bound l ->
    Handle o (bound ++ kitlog.fill_missing keyvals) (Traced.With l keyvals)
| Handle_trace (o : level.Option) (bound : list value) (l : Traced.Log)
               (ctx : Context) :
    Handle o bound l ->
    Handle o bound (Traced.WithTrace l ctx).

(** The minimum severity of a filter; "allow all" is equivalent to Debug,
    "allow none" has no minimum. *)
Definition minimum_severity (o : level.Option) : option Severity :=
  match o with
  | level.AllowMin m => Some m
  | level.AllowEvery => Some SevDebug
  | level.AllowNothing => None
  end.

(** A world with no environment variable set, nothing written, no span
    event. *)
Definition world0 : World :=
  {| environ := fun _ => None; stdout := []; spans := []; clock := 0%Z |}.

(** The world after the encoder has written the entries [es]. *)
Definition add_stdout (es : list Entry) (w : World) : World :=
  {| environ := environ w;
     stdout := stdout w ++ es;
     spans := spans w;
     clock := clock w |}.

(** The method of a severity, in [src/log.go]. *)
Definition plain_call (s : Severity)
  : Plain.Log -> string -> list value -> M unit :=
  match s with
  | SevDebug => Plain.Debug
  | SevInfo => Plain.Info
  | SevWarning => Plain.Warning
  | SevError => Plain.Error
  end.

(** A call of one of the package-level functions of [src/unnamed/part_001]. *)
Inductive StdCall : Type :=
| CallSetLevel (level : string)
| CallLog (s : Severity) (message : string) (keyvals : list value).

Definition std_call (c : StdCall) : Std.Package -> M Std.Package :=
  match c with
  | CallSetLevel level => Std.SetLevel level
  | CallLog SevDebug message keyvals => Std.Debug message keyvals
  | CallLog SevInfo message keyvals => Std.Info message keyvals
  | CallLog SevWarning message keyvals => Std.Warning message keyvals
  | CallLog SevError message keyvals => Std.Error message keyvals
  end.

(** A program that makes the calls [cs] one after the other. *)
Fixpoint std_run (cs : list StdCall) (g : Std.Package) : M Std.Package :=
  match cs with
  | [] => ret g
  | c :: rest => g' <- std_call c g ;; std_run rest g'
  end.

(** What one package-level call leaves on the standard output when the
    logger filters with "info". *)
Definition std_call_record (c : StdCall) : list Entry :=
  match c with
  | CallSetLevel _ => []
  | CallLog SevDebug _ _ => []
  | CallLog s message keyvals =>
      [mkEntry (Some s)
               ((match message with
                 | EmptyString => []
                 | String _ _ => [VString "message"; VString message]
                 end) ++ keyvals)]
  end.

(** The four records the example program submits, in order. *)
Definition main_records : list Entry :=
  map (fun s => mkEntry (Some s)
                        [VString "message"; VString "test";
                         VString "foo"; VString "bar"])
      [SevDebug; SevInfo; SevWarning; SevError].

(** Whether the filter [o] lets the entry through. *)
Definition entry_accepted (o : level.Option) (e : Entry) : bool :=
  match entry_level e with
  | Some s => level.accepts o s
  | None => true
  end.

(** The value [os.Getenv] returns in the world [w]. *)
Definition env_value (w : World) (key : string) : string :=
  match environ w key with
  | Some v => v
  | None => ""
  end.

(** * Properties *)

(** ** The model on concrete calls *)

Example evaluateLogLevel_mixed_case :
  Traced.evaluateLogLevel "WaRnInG" = (level.AllowWarn, None).
Proof. reflexivity. Qed.

Example evaluateLogLevel_unknown :
  Traced.evaluateLogLevel "verbose" =
    (level.AllowAll, Some "no log-level passed, falling back to debug").
Proof. reflexivity. Qed.

Example Sprint_slice :
  Sprint (VSlice [VInt 1; VBool true; VString "x"]) = "[1 true x]".
Proof. reflexivity. Qed.

Example tagLoop_five_elements :
  Traced.tagLoop 7 [VString "a"; VInt 3; VString "b"; VInt (-4); VString "c"]
                 0 world0 =
    Some (tt, add_spans [(7, Tag "a" "3"); (7, Tag "b" "-4")] world0).
Proof. reflexivity. Qed.

Example NewLogger_unknown_level_warns :
  Traced.NewLogger "" world0 =
    Some ({| Traced.kitLogger := FilterLogger JSONLogger level.AllowAll;
             Traced.span := None |},
          emit (mkEntry (Some SevWarning)
                        [VString "err";
                         VError "no log-level passed, falling back to debug"])
               world0).
Proof. reflexivity. Qed.

(** ** The level resolver *)

Lemma ascii_code_inj (c d : ascii) : nat_of_ascii c = nat_of_ascii d -> c = d.
Proof.
  intros H. rewrite <- (ascii_nat_embedding c), <- (ascii_nat_embedding d).
  now rewrite H.
Qed.

Lemma lower_byte_same_letter (c d : ascii) :
  is_lower_letter d = true -> Ascii.eqb (lower_byte c) d = same_letter c d.
Proof.
  unfold is_lower_letter, same_letter, upper_byte, is_lower_letter, lower_byte.
  intros Hd. rewrite Hd.
  apply andb_true_iff in Hd. destruct Hd as [Hd1 Hd2].
  apply Nat.leb_le in Hd1. apply Nat.leb_le in Hd2.
  pose proof (nat_ascii_bounded c) as Hc.
  pose proof (nat_ascii_bounded d) as Hdb.
  destruct ((65 <=? nat_of_ascii c)%nat && (nat_of_ascii c <=? 90)%nat)%bool eqn:Hup.
  - apply andb_true_iff in Hup. destruct Hup as [Hu1 Hu2].
    apply Nat.leb_le in Hu1. apply Nat.leb_le in Hu2.
    assert (Hne : Ascii.eqb c d = false).
    { apply Ascii.eqb_neq. intros ->. lia. }
    rewrite Hne. simpl.
    destruct (Ascii.eqb c (ascii_of_nat (nat_of_ascii d - 32))) eqn:E.
    + apply Ascii.eqb_eq in E. apply Ascii.eqb_eq.
      apply ascii_code_inj. rewrite nat_ascii_embedding by lia.
      rewrite E. rewrite nat_ascii_embedding by lia. lia.
    + apply Ascii.eqb_neq. apply Ascii.eqb_neq in E. intros H. apply E.
      apply ascii_code_inj. rewrite nat_ascii_embedding by lia.
      rewrite <- H. rewrite nat_ascii_embedding by lia. lia.
  - assert (Hne : Ascii.eqb c (ascii_of_nat (nat_of_ascii d - 32)) = false).
    { apply Ascii.eqb_neq. intros E.
      apply (f_equal nat_of_ascii) in E.
      rewrite nat_ascii_embedding in E by lia.
      apply andb_false_iff in Hup.
      destruct Hup as [Hup | Hup]; apply Nat.leb_gt in Hup; lia. }
    rewrite Hne. now rewrite orb_false_r.
Qed.

Lemma ToLower_String (c : ascii) (rest : string) :
  ToLower (String c rest) =
    if Ascii.eqb c "196"%char then
      match rest with
      | String b rest' =>
          if Ascii.eqb b "176"%char
          then String "i"%char (ToLower rest')
          else String (lower_byte c) (ToLower rest)
      | EmptyString => String (lower_byte c) (ToLower rest)
      end
    else if Ascii.eqb c "226"%char then
      match rest with
      | String b1 (String b2 rest') =>
          if (Ascii.eqb b1 "132"%char && Ascii.eqb b2 "170"%char)%bool
          then String "k"%char (ToLower rest')
          else String (lower_byte c) (ToLower rest)
      | _ => String (lower_byte c) (ToLower rest)
      end
    else String (lower_byte c) (ToLower rest).
Proof. reflexivity. Qed.

Lemma ToLower_String_nonempty (c : ascii) (rest : string) :
  String.eqb (ToLower (String c rest)) EmptyString = false.
Proof.
  rewrite ToLower_String.
  destruct (Ascii.eqb c "196"%char).
  - destruct rest as [|b rest']; [reflexivity|].
    destruct (Ascii.eqb b "176"%char); reflexivity.
  - destruct (Ascii.eqb c "226"%char); [|reflexivity].
    destruct rest as [|b1 [|b2 rest']]; try reflexivity.
    destruct (Ascii.eqb b1 "132"%char && Ascii.eqb b2 "170"%char)%bool; reflexivity.
Qed.

(** A byte outside ASCII is no letter of a level name, lowered or not. *)
Lemma lower_letter_is_ascii (d : ascii) :
  is_lower_letter d = true -> is_ascii_byte d = true.
Proof.
  unfold is_lower_letter, is_ascii_byte. intros H.
  apply andb_true_iff in H. destruct H as [_ H].
  apply Nat.leb_le in H. apply Nat.ltb_lt. lia.
Qed.

Lemma non_ascii_not_letter (c d : ascii) :
  is_ascii_byte c = false -> is_lower_letter d = true ->
  Ascii.eqb (lower_byte c) d = false /\ same_letter c d = false.
Proof.
  intros Hc Hd.
  assert (Hl : lower_byte c = c).
  { unfold lower_byte. unfold is_ascii_byte in Hc. apply Nat.ltb_ge in Hc.
    destruct (65 <=? nat_of_ascii c)%nat eqn:E1; [|reflexivity].
    destruct (nat_of_ascii c <=? 90)%nat eqn:E2; [|reflexivity].
    apply Nat.leb_le in E2. lia. }
  assert (Hne : Ascii.eqb c d = false).
  { apply Ascii.eqb_neq. intros ->.
    rewrite (lower_letter_is_ascii d Hd) in Hc. discriminate. }
  split.
  - now rewrite Hl.
  - rewrite <- (lower_byte_same_letter c d Hd). now rewrite Hl.
Qed.

Lemma ToLower_eqb_dotted (name : string) :
  level_letters name = true ->
  forall s, String.eqb (ToLower s) name = spec_case_variant_dotted s name.
Proof.
  induction name as [|d name IH]; intros H s.
  - destruct s as [|c rest]; [reflexivity|]. apply ToLower_String_nonempty.
  - simpl in H. apply andb_true_iff in H. destruct H as [H Hn].
    apply andb_true_iff in H. destruct H as [Hd Hk].
    apply negb_true_iff in Hk.
    specialize (IH Hn).
    destruct s as [|c rest]; [reflexivity|].
    rewrite ToLower_String.
    cbn [spec_case_variant_dotted].
    destruct (Ascii.eqb_spec c "196"%char) as [->|Hc1].
    + destruct (non_ascii_not_letter "196"%char d eq_refl Hd) as [F1 F2].
      rewrite F2. rewrite andb_true_r. cbn [andb orb].
      destruct rest as [|b rest'].
      * cbn [String.eqb]. rewrite F1. now rewrite andb_false_r.
      * destruct (Ascii.eqb b "176"%char) eqn:Eb.
        -- cbn [String.eqb andb]. rewrite IH.
           rewrite (Ascii.eqb_sym "i"%char d). reflexivity.
        -- cbn [String.eqb andb]. rewrite F1. now rewrite andb_false_r.
    + rewrite andb_false_r. cbn [andb]. rewrite orb_false_r.
      destruct (Ascii.eqb_spec c "226"%char) as [->|Hc2].
      * destruct (non_ascii_not_letter "226"%char d eq_refl Hd) as [F1 F2].
        rewrite F2. cbn [andb].
        assert (Hplain : String.eqb (String (lower_byte "226"%char) (ToLower rest))
                                    (String d name) = false)
          by (cbn [String.eqb]; now rewrite F1).
        destruct rest as [|b1 [|b2 rest']]; try exact Hplain.
        destruct (Ascii.eqb b1 "132"%char && Ascii.eqb b2 "170"%char)%bool;
          [|exact Hplain].
        cbn [String.eqb]. rewrite (Ascii.eqb_sym "k"%char d), Hk. reflexivity.
      * cbn [String.eqb].
        rewrite (lower_byte_same_letter c d Hd), IH. reflexivity.
Qed.

(** On ASCII bytes the case variants with U+0130 are the case variants. *)
Lemma case_variant_dotted_ascii (name s : string) :
  isASCII s = true ->
  spec_case_variant_dotted s name = spec_case_variant s name.
Proof.
  revert s. induction name as [|d name IH]; intros s Hs.
  - destruct s; reflexivity.
  - destruct s as [|c rest]; [reflexivity|].
    cbn [isASCII] in Hs. apply andb_true_iff in Hs. destruct Hs as [Hc Hr].
    cbn [spec_case_variant_dotted spec_case_variant].
    rewrite (IH rest Hr).
    assert (Hne : Ascii.eqb c "196"%char = false).
    { apply Ascii.eqb_neq. intros ->. discriminate. }
    rewrite Hne, andb_false_r. cbn [andb]. now rewrite orb_false_r.
Qed.

(** C4, amended: [evaluateLogLevel] returns the filter of the name and no
    error for every case variant of "debug", "info", "warning" or "error",
    also when U+0130 stands for an 'i' of the name, and the allow-all
    filter with a non-nil error for every other string, the empty one
    included.  On ASCII strings the variants are the ASCII case variants.
    The resolver of [src/log.go] returns the same filter and has no error
    result. *)
Theorem evaluateLogLevel_resolves (logLevel : string) :
  Traced.evaluateLogLevel logLevel = spec_resolve_dotted logLevel
  /\ Plain.evaluateLogLevel logLevel = fst (spec_resolve_dotted logLevel)
  /\ Traced.evaluateLogLevel "" =
       (level.AllowAll, Some "no log-level passed, falling back to debug")
  /\ (isASCII logLevel = true ->
      Traced.evaluateLogLevel logLevel = spec_resolve logLevel).
Proof.
  assert (E : Traced.evaluateLogLevel logLevel = spec_resolve_dotted logLevel).
  { unfold Traced.evaluateLogLevel, spec_resolve_dotted,
      LevelDebug, LevelInfo, LevelWarning, LevelError.
    rewrite !ToLower_eqb_dotted by reflexivity. reflexivity. }
  split; [exact E|]. split; [|split; [reflexivity|]].
  - unfold Plain.evaluateLogLevel, spec_resolve_dotted,
      LevelDebug, LevelInfo, LevelWarning, LevelError.
    rewrite !ToLower_eqb_dotted by reflexivity.
    repeat match goal with
           | |- context [if ?b then _ else _] => destruct b; try reflexivity
           end.
  - intros Hs. rewrite E. unfold spec_resolve_dotted, spec_resolve.
    now rewrite !(case_variant_dotted_ascii _ logLevel Hs).
Qed.

Lemma evaluateLogLevel_resolves_witness :
  Traced.evaluateLogLevel "WaRnInG" = (level.AllowWarn, None).
Proof.
  exact (proj2 (proj2 (proj2 (evaluateLogLevel_resolves "WaRnInG"))) eq_refl).
Defined.

(** C4 fails as stated: the five bytes of "INFO" written with U+0130 are
    not got from a level name by changing the case of its ASCII letters,
    so the claim has them fall back to allow-all with an error, and
    [evaluateLogLevel] resolves them to the filter of "info" without error.
    The resolver of [src/log.go] returns a bare filter: for the empty
    string it is allow-all, and there is no error beside it. *)
Lemma evaluateLogLevel_dotted_I :
  spec_resolve dotted_INFO =
    (level.AllowAll, Some "no log-level passed, falling back to debug")
  /\ Traced.evaluateLogLevel dotted_INFO = (level.AllowInfo, None)
  /\ Plain.evaluateLogLevel dotted_INFO = level.AllowInfo
  /\ Plain.evaluateLogLevel "" = level.AllowAll.
Proof. repeat split. Qed.

(** ** The key/value merger *)

(** C5: with a non-empty message [mergeKeyValues] returns the key "message",
    then the message, then the pairs unchanged and in order; with the empty
    message it returns the pairs unchanged.  Both variants of the package
    agree. *)
Theorem mergeKeyValues_message_first
  (l : Traced.Log) (l' : Plain.Log) (message : string) (pairs : list value) :
  Traced.mergeKeyValues l message pairs =
    match message with
    | EmptyString => pairs
    | String _ _ => VString "message" :: VString message :: pairs
    end
  /\ Plain.mergeKeyValues l' message pairs = Traced.mergeKeyValues l message pairs.
Proof.
  unfold Traced.mergeKeyValues, Plain.mergeKeyValues, MessageKey.
  destruct message; simpl; split; reflexivity.
Qed.

(** ** Worlds and deliveries *)

Lemma add_spans_nil (w : World) : add_spans [] w = w.
Proof. destruct w. unfold add_spans. simpl. now rewrite app_nil_r. Qed.

Lemma add_spans_record (sp : Span) (ev : SpanEvent) evs (w : World) :
  add_spans evs (record_span sp ev w) = add_spans ((sp, ev) :: evs) w.
Proof. unfold add_spans, record_span. simpl. now rewrite <- app_assoc. Qed.

(** A delivery writes to the standard output only. *)
Lemma deliver_frame (l : Logger) :
  forall sev keyvals w,
    environ (kitlog.deliver l sev keyvals w) = environ w
    /\ spans (kitlog.deliver l sev keyvals w) = spans w
    /\ clock (kitlog.deliver l sev keyvals w) = clock w.
Proof.
  induction l as [|next IH allowed|next IH bound|s next IH]; intros sev keyvals w; simpl.
  - auto.
  - destruct sev as [s|]; [destruct (level.accepts allowed s)|]; auto.
  - apply IH.
  - apply IH.
Qed.

Lemma deliver_stdout (l : Logger) :
  forall sev keyvals w,
    stdout (kitlog.deliver l sev keyvals w) = stdout w ++ written l sev keyvals.
Proof.
  induction l as [|next IH allowed|next IH bound|s next IH]; intros sev keyvals w; simpl.
  - reflexivity.
  - destruct sev as [s|]; [destruct (level.accepts allowed s)|];
      rewrite ?IH, ?app_nil_r; reflexivity.
  - apply IH.
  - apply IH.
Qed.

(** ** The tagging loop *)

Lemma skipn_nth_error {A : Type} (l : list A) :
  forall i x, nth_error l i = Some x -> skipn i l = x :: skipn (S i) l.
Proof.
  induction l as [|a l IH]; intros [|i] x H; simpl in *; try discriminate.
  - now inversion H.
  - now apply IH.
Qed.

Lemma tagLoop_tags (sp : Span) (keyvals : list value) (i : nat) (w : World) :
  Traced.tagLoop sp keyvals i w =
    Some (tt, add_spans (tag_events sp (skipn i keyvals)) w).
Proof.
  funelim (Traced.tagLoop sp keyvals i w).
  - (* i < len(keyvals) *)
    destruct ((length keyvals <=? i)%nat || (length keyvals <=? i + 1)%nat)%bool eqn:Hbrk.
    + (* break: keyvals[i] has no partner *)
      assert (Hlen : length (skipn i keyvals) = 1)
        by (rewrite length_skipn; apply orb_true_iff in Hbrk;
            destruct Hbrk as [Hb|Hb]; apply Nat.leb_le in Hb; lia).
      destruct (skipn i keyvals) as [|x [|y rest]]; try discriminate.
      unfold tag_events. simpl. now rewrite add_spans_nil.
    + apply orb_false_iff in Hbrk. destruct Hbrk as [H1 H2].
      apply Nat.leb_gt in H1. apply Nat.leb_gt in H2.
      unfold index.
      destruct (nth_error keyvals i) as [k|] eqn:Ek;
        [|apply nth_error_None in Ek; lia].
      destruct (nth_error keyvals (i + 1)) as [v|] eqn:Ev;
        [|apply nth_error_None in Ev; lia].
      unfold ret.
      match goal with
      | IH : context [Traced.tagLoop _ _ (_ + 2) _] |- _ =>
          rewrite (IH (k, w) k w (v, w) v w)
      end.
      rewrite (skipn_nth_error keyvals i k Ek).
      replace (i + 1) with (S i) in Ev by lia.
      rewrite (skipn_nth_error keyvals (S i) v Ev).
      replace (i + 2) with (S (S i)) by lia.
      unfold tag_events. simpl. now rewrite add_spans_record.
  - (* i >= len(keyvals): the loop is over *)
    rewrite skipn_all2 by lia. unfold tag_events. simpl. now rewrite add_spans_nil.
Qed.

(** ** Trace enrichment *)

Lemma handleTrace_events (l : Traced.Log) (message : string) (keyvals : list value)
                         (w : World) :
  Traced.handleTrace l message keyvals w =
    Some (tt, add_spans (trace_events l message keyvals (clock w)) w).
Proof.
  unfold Traced.handleTrace, trace_events.
  destruct (Traced.span l) as [sp|].
  - unfold bind, gets, modify, ret.
    destruct (negb (String.eqb message "")); rewrite tagLoop_tags; simpl.
    + now rewrite add_spans_record.
    + reflexivity.
  - unfold ret. now rewrite add_spans_nil.
Qed.

(** ** The severity methods *)

Lemma severity_call_effect (s : Severity) (l : Traced.Log) (message : string)
                           (keyvals : list value) (w : World) :
  severity_call s l message keyvals w =
    Some (tt,
          kitlog.deliver (Traced.kitLogger l) (Some s)
            (Traced.mergeKeyValues l message keyvals)
            (add_spans (if enriches s
                        then trace_events l message keyvals (clock w)
                        else []) w)).
Proof.
  destruct s; simpl;
    unfold Traced.Debug, Traced.Info, Traced.Warning, Traced.Error,
      kitlog.Log, bind, modify;
    rewrite ?handleTrace_events, ?add_spans_nil; reflexivity.
Qed.

Lemma severity_call_stdout (s : Severity) (l : Traced.Log) (message : string)
                           (keyvals : list value) (w : World) :
  exists w',
    severity_call s l message keyvals w = Some (tt, w')
    /\ stdout w' = stdout w
                   ++ written (Traced.kitLogger l) (Some s)
                        (Traced.mergeKeyValues l message keyvals)
    /\ spans w' = spans w
                  ++ (if enriches s
                      then trace_events l message keyvals (clock w)
                      else [])
    /\ environ w' = environ w
    /\ clock w' = clock w.
Proof.
  eexists. split; [apply severity_call_effect|].
  rewrite deliver_stdout.
  destruct (deliver_frame (Traced.kitLogger l) (Some s)
              (Traced.mergeKeyValues l message keyvals)
              (add_spans (if enriches s
                          then trace_events l message keyvals (clock w)
                          else []) w)) as (He & Hs & Hc).
  rewrite He, Hs, Hc. simpl. auto.
Qed.

(** ** Handles *)

(** [log.With] puts the bound key/values in front of every record. *)
Lemma written_With (l : Logger) (bound keyvals : list value) (sev : option Severity) :
  written (kitlog.With l bound) sev keyvals =
    written l sev (kitlog.fill_missing bound ++ keyvals).
Proof.
  destruct bound as [|b bound]; [reflexivity|].
  destruct l; simpl; try reflexivity.
  now rewrite <- app_assoc.
Qed.

Lemma bound_fields_With (l : Logger) (keyvals : list value) :
  bound_fields (kitlog.With l keyvals) =
    bound_fields l ++ kitlog.fill_missing keyvals.
Proof.
  destruct keyvals as [|k keyvals]; [simpl; now rewrite app_nil_r|].
  destruct l; simpl; try reflexivity.
  now rewrite app_assoc.
Qed.

Lemma With_kitLogger (l : Traced.Log) (keyvals : list value) :
  Traced.kitLogger (Traced.With l keyvals) = kitlog.With (Traced.kitLogger l) keyvals.
Proof.
  unfold Traced.With. destruct keyvals; reflexivity.
Qed.

Lemma With_span (l : Traced.Log) (keyvals : list value) :
  Traced.span (Traced.With l keyvals) = Traced.span l.
Proof.
  unfold Traced.With. destruct keyvals; reflexivity.
Qed.

Lemma NewLogger_returns (logLevel : string) (w : World) :
  exists w',
    Traced.NewLogger logLevel w =
      Some ({| Traced.kitLogger :=
                 FilterLogger JSONLogger (fst (Traced.evaluateLogLevel logLevel));
               Traced.span := None |}, w').
Proof.
  unfold Traced.NewLogger.
  destruct (Traced.evaluateLogLevel logLevel) as [o [e|]]; simpl.
  - unfold bind.
    destruct (severity_call_stdout SevWarning
                {| Traced.kitLogger := level_loggers.NewFilter kitlog.NewJSONLogger o;
                   Traced.span := None |} "" [VString "err"; error_value e] w)
      as (w' & Hcall & _).
    simpl in Hcall. rewrite Hcall. now exists w'.
  - now exists w.
Qed.

Lemma Handle_written (o : level.Option) (bound : list value) (l : Traced.Log) :
  Handle o bound l ->
  forall sev keyvals,
    written (Traced.kitLogger l) sev keyvals =
      written (FilterLogger JSONLogger o) sev (bound ++ keyvals).
Proof.
  induction 1 as [logLevel w w' l Hnew | o bound kvs l _ IH | o bound l ctx _ IH];
    intros sev keyvals.
  - destruct (NewLogger_returns logLevel w) as (w'' & Hret).
    rewrite Hret in Hnew. inversion Hnew; subst. reflexivity.
  - rewrite With_kitLogger, written_With, IH. now rewrite app_assoc.
  - unfold Traced.WithTrace. destruct (SpanFromContext ctx); simpl; apply IH.
Qed.

(** ** Level filtering *)

Lemma accepts_minimum (o : level.Option) (s : Severity) :
  level.accepts o s = true <->
  exists m, minimum_severity o = Some m /\ rank m <= rank s.
Proof.
  destruct o as [m| |]; simpl.
  - rewrite Nat.leb_le. split.
    + intros H. now exists m.
    + intros (m' & E & H). now inversion E; subst.
  - split; [intros _; exists SevDebug; split; [reflexivity|simpl; lia] | reflexivity].
  - split; [discriminate | intros (m & E & _); discriminate].
Qed.

(** C6: a record of severity [s], logged through a handle whose filter is
    [o] and whose bound fields are [bound], is written iff [s] is at least
    the minimum severity of [o]; what is written is the bound fields, the
    message pair and the pairs.  On a logger made with "warning",
    [Info("hello")] writes nothing and [Error("bad", "code", 500)] writes
    the record [message bad code 500]. *)
Theorem severity_filtering :
  (forall o bound l s message keyvals w,
      Handle o bound l ->
      exists w',
        severity_call s l message keyvals w = Some (tt, w')
        /\ stdout w' =
             stdout w ++
             (if level.accepts o s
              then [mkEntry (Some s)
                            (bound ++ Traced.mergeKeyValues l message keyvals)]
              else [])
        /\ (level.accepts o s = true <->
            exists m, minimum_severity o = Some m /\ rank m <= rank s))
  /\ (forall w,
         exists l,
           Traced.NewLogger "warning" w = Some (l, w)
           /\ Traced.Info l "hello" [] w = Some (tt, w)
           /\ Traced.Error l "bad" [VString "code"; VInt 500] w =
                Some (tt, emit (mkEntry (Some SevError)
                                        [VString "message"; VString "bad";
                                         VString "code"; VInt 500]) w)).
Proof.
  split.
  - intros o bound l s message keyvals w H.
    destruct (severity_call_stdout s l message keyvals w) as (w' & Hcall & Hout & _).
    exists w'. split; [exact Hcall|]. split; [|apply accepts_minimum].
    rewrite Hout, (Handle_written o bound l H). simpl.
    destruct (level.accepts o s); reflexivity.
  - intros w.
    exists {| Traced.kitLogger := FilterLogger JSONLogger level.AllowWarn;
              Traced.span := None |}.
    repeat split.
Qed.

(** The logger made with "warning" is a handle, and [Info] through it
    writes nothing. *)
Lemma severity_filtering_witness :
  exists l,
    Handle level.AllowWarn [] l
    /\ exists w',
         Traced.Info l "hello" [] world0 = Some (tt, w')
         /\ stdout w' = [].
Proof.
  exists {| Traced.kitLogger := FilterLogger JSONLogger level.AllowWarn;
            Traced.span := None |}.
  assert (H : Handle level.AllowWarn []
                {| Traced.kitLogger := FilterLogger JSONLogger level.AllowWarn;
                   Traced.span := None |})
    by exact (Handle_new "warning" world0 world0 _ eq_refl).
  split; [exact H|].
  destruct (proj1 severity_filtering level.AllowWarn [] _ SevInfo "hello" []
              world0 H) as (w' & Hcall & Hout & _).
  exists w'. split; [exact Hcall | exact Hout].
Defined.

(** ** Field binding *)

(** C7: [With()] returns the receiver; [With(a,b).With(c,d)] binds the
    fields of the receiver followed by a, b, c, d, and every record the
    derived handle submits carries them in that order before its own
    key/values. *)
Theorem With_accumulates (l : Traced.Log) (a b c d : value) :
  Traced.With l [] = l
  /\ bound_fields (Traced.kitLogger (Traced.With (Traced.With l [a; b]) [c; d])) =
       bound_fields (Traced.kitLogger l) ++ [a; b; c; d]
  /\ (forall sev keyvals,
         written (Traced.kitLogger (Traced.With (Traced.With l [a; b]) [c; d]))
                 sev keyvals =
         written (Traced.kitLogger l) sev ([a; b; c; d] ++ keyvals))
  /\ (forall o,
         bound_fields
           (Traced.kitLogger
              (Traced.With
                 (Traced.With {| Traced.kitLogger := FilterLogger JSONLogger o;
                                 Traced.span := None |} [a; b]) [c; d])) =
         [a; b; c; d]).
Proof.
  split; [reflexivity|].
  split; [|split].
  - rewrite !With_kitLogger, !bound_fields_With, <- app_assoc. reflexivity.
  - intros sev keyvals. rewrite !With_kitLogger, !written_With. reflexivity.
  - intros o. reflexivity.
Qed.

(** C10: for a non-empty sequence of pairs, the handle [With] returns
    carries the span of the receiver. *)
Theorem With_keeps_span (l : Traced.Log) (pairs : list value) :
  pairs <> [] ->
  Traced.span (Traced.With l pairs) = Traced.span l.
Proof.
  intros _. apply With_span.
Qed.

Lemma With_keeps_span_witness :
  Traced.span
    (Traced.With {| Traced.kitLogger := FilterLogger JSONLogger level.AllowInfo;
                    Traced.span := Some 7 |}
                 [VString "service"; VString "billing"]) = Some 7.
Proof.
  apply (With_keeps_span
           {| Traced.kitLogger := FilterLogger JSONLogger level.AllowInfo;
              Traced.span := Some 7 |}
           [VString "service"; VString "billing"]).
  discriminate.
Defined.

(** ** Odd key/value sequences *)

Lemma pairs_ind {A : Type} (P : list A -> Prop) :
  P [] -> (forall x, P [x]) -> (forall x y l, P l -> P (x :: y :: l)) ->
  forall l, P l.
Proof.
  intros H0 H1 H2.
  fix IH 1. intros [|x [|y l]]; [exact H0 | apply H1 | apply H2, IH].
Qed.


Lemma complete_pairs_length (keyvals : list value) :
  length (complete_pairs keyvals) = Nat.div2 (length keyvals).
Proof.
  induction keyvals as [| x | x y l IH] using pairs_ind; simpl; auto.
Qed.



(** ** Enrichment is best effort *)

(** C9: on a handle without a span [handleTrace] returns the world as it
    found it (no annotation, no tag); on every handle a severity call and
    [Log] return, and write to the standard output what the same call
    writes on the handle without its span. *)
Theorem enrichment_best_effort
  (k : Logger) (osp : option Span) (message : string) (keyvals : list value)
  (w : World) :
  Traced.handleTrace {| Traced.kitLogger := k; Traced.span := None |}
                     message keyvals w = Some (tt, w)
  /\ (exists w', Traced.handleTrace {| Traced.kitLogger := k; Traced.span := osp |}
                                    message keyvals w = Some (tt, w')
                 /\ stdout w' = stdout w)
  /\ (forall s,
         exists w1 w2,
           severity_call s {| Traced.kitLogger := k; Traced.span := osp |}
                         message keyvals w = Some (tt, w1)
           /\ severity_call s {| Traced.kitLogger := k; Traced.span := None |}
                            message keyvals w = Some (tt, w2)
           /\ stdout w1 = stdout w2
           /\ spans w2 = spans w
           /\ stdout w1 = stdout w ++ written k (Some s)
                                        (Traced.mergeKeyValues
                                           {| Traced.kitLogger := k;
                                              Traced.span := osp |}
                                           message keyvals))
  /\ (exists w1 w2,
         Traced.Log_Log {| Traced.kitLogger := k; Traced.span := osp |} keyvals w =
           Some (tt, w1)
         /\ Traced.Log_Log {| Traced.kitLogger := k; Traced.span := None |} keyvals w =
              Some (tt, w2)
         /\ stdout w1 = stdout w2
         /\ spans w2 = spans w
         /\ stdout w1 = stdout w ++ written k None keyvals).
Proof.
  split; [reflexivity|]. split; [|split].
  - rewrite handleTrace_events. eexists. split; reflexivity.
  - intros s.
    destruct (severity_call_stdout s {| Traced.kitLogger := k; Traced.span := osp |}
                message keyvals w) as (w1 & H1 & O1 & _).
    destruct (severity_call_stdout s {| Traced.kitLogger := k; Traced.span := None |}
                message keyvals w) as (w2 & H2 & O2 & S2 & _).
    exists w1, w2. simpl in *.
    repeat split; try assumption.
    + rewrite O1, O2. reflexivity.
    + rewrite S2. unfold trace_events. simpl.
      destruct (enriches s); now rewrite app_nil_r.
  - unfold Traced.Log_Log, bind, kitlog.Log, modify.
    rewrite !handleTrace_events. do 2 eexists.
    split; [reflexivity|]. split; [reflexivity|].
    rewrite !deliver_stdout. simpl.
    destruct (deliver_frame k None keyvals
                (add_spans (trace_events {| Traced.kitLogger := k;
                                            Traced.span := None |}
                                         "" keyvals (clock w)) w))
      as (_ & Hs & _).
    rewrite Hs. simpl. rewrite app_nil_r. auto.
Qed.

(** ** [Log] *)

Lemma Plain_NewLogger_written (logLevel : string) (keyvals : list value) :
  written (Plain.kitLogger (Plain.NewLogger logLevel)) None keyvals =
    [mkEntry None keyvals].
Proof. reflexivity. Qed.

(** C3: [Log] of [src/log.go] hands the sink ONE value, the slice of the
    key/values, whatever their number; [Log] of the tracing variant hands
    it the key/values themselves, flat and in order, with no message pair
    and no severity. *)
Theorem Plain_Log_submits_one_slice :
  (forall logLevel keyvals w,
      exists w',
        Plain.Log_Log (Plain.NewLogger logLevel) keyvals w = Some (tt, w')
        /\ stdout w' = stdout w ++ [mkEntry None [VSlice keyvals]])
  /\ (exists w',
         Plain.Log_Log (Plain.NewLogger "debug") [VString "k"; VString "v"] world0 =
           Some (tt, w')
         /\ stdout w' = [mkEntry None [VSlice [VString "k"; VString "v"]]]
         /\ stdout w' <> [mkEntry None [VString "k"; VString "v"]])
  /\ (forall o bound l keyvals w,
         Handle o bound l ->
         exists w',
           Traced.Log_Log l keyvals w = Some (tt, w')
           /\ stdout w' = stdout w ++ [mkEntry None (bound ++ keyvals)]).
Proof.
  split; [|split].
  - intros logLevel keyvals w. unfold Plain.Log_Log, kitlog.Log, modify.
    eexists. split; [reflexivity|].
    now rewrite deliver_stdout, Plain_NewLogger_written.
  - eexists. split; [reflexivity|]. split; [reflexivity | discriminate].
  - intros o bound l keyvals w H.
    unfold Traced.Log_Log, bind, kitlog.Log, modify.
    rewrite handleTrace_events. eexists. split; [reflexivity|].
    rewrite deliver_stdout, (Handle_written o bound l H). reflexivity.
Qed.

(** ** [SetLevel] *)

(** C1: [SetLevel] leaves the handle it is called on as it was: the method
    and the package-level function return the world and the package
    unchanged, and after [SetLevel] the logger [std] still filters with
    "info".  After [SetLevel("debug")], [Debug] writes nothing although the
    filter of "debug" accepts Debug; after [SetLevel("error")], [Info] is
    written although the filter of "error" rejects Info. *)
Theorem SetLevel_leaves_filter :
  (forall l logLevel w, Traced.SetLevel l logLevel w = Some (tt, w))
  /\ (forall logLevel g w, Std.SetLevel logLevel g w = Some (g, w))
  /\ (exists g,
         Std.init world0 = Some (g, world0)
         /\ (g1 <- Std.SetLevel "debug" g ;; Std.Debug "hello" [] g1) world0 =
              Some (g, world0)
         /\ level.accepts (fst (Traced.evaluateLogLevel "debug")) SevDebug = true
         /\ (g1 <- Std.SetLevel "error" g ;; Std.Info "hello" [] g1) world0 =
              Some (g, emit (mkEntry (Some SevInfo)
                                     [VString "message"; VString "hello"]) world0)
         /\ level.accepts (fst (Traced.evaluateLogLevel "error")) SevInfo = false).
Proof.
  split; [reflexivity|]. split; [reflexivity|].
  exists {| Std.std := {| Traced.kitLogger := FilterLogger JSONLogger level.AllowInfo;
                          Traced.span := None |} |}.
  repeat split.
Qed.

(** ** The package-level logger *)

(** C2 fails as stated: with LOG_LEVEL unset, [Debug] through [std] writes
    nothing, so it is not the case that every severity gets through the
    default logger. *)
Lemma default_logger_not_from_env :
  environ world0 EnvironmentVariable = None
  /\ ~ (forall s g w w',
           Std.init world0 = Some (g, w) ->
           severity_call s (Std.std g) "test" [VString "foo"; VString "bar"] w =
             Some (tt, w') ->
           stdout w' <> stdout w).
Proof.
  split; [reflexivity|].
  intros H.
  apply (H SevDebug
           {| Std.std := {| Traced.kitLogger := FilterLogger JSONLogger level.AllowInfo;
                            Traced.span := None |} |}
           world0 world0 eq_refl eq_refl).
  reflexivity.
Qed.

(** C2, amended: [std] is made when the package is initialised, with the
    filter of the fixed name "info" whatever LOG_LEVEL holds: Info, Warning
    and Error get through, Debug does not.  [NewLoggerFromEnv] resolves the
    filter from LOG_LEVEL, and with LOG_LEVEL unset its logger lets every
    severity from Debug to Error through. *)
Theorem default_logger_level_info :
  (forall w,
      exists g,
        Std.init w = Some (g, w)
        /\ Handle level.AllowInfo [] (Std.std g)
        /\ forall s keyvals,
             written (Traced.kitLogger (Std.std g)) (Some s) keyvals =
               if Severity_eqb s SevDebug then [] else [mkEntry (Some s) keyvals])
  /\ (forall w name,
         environ w EnvironmentVariable = Some name ->
         exists l w',
           Traced.NewLoggerFromEnv w = Some (l, w')
           /\ Handle (fst (Traced.evaluateLogLevel name)) [] l)
  /\ (forall w,
         environ w EnvironmentVariable = None ->
         exists l,
           Traced.NewLoggerFromEnv w =
             Some (l, emit (mkEntry (Some SevWarning)
                              [VString "err";
                               VError "no log-level passed, falling back to debug"])
                           w)
           /\ Handle level.AllowAll [] l
           /\ forall s keyvals,
                written (Traced.kitLogger l) (Some s) keyvals =
                  [mkEntry (Some s) keyvals]).
Proof.
  split; [|split].
  - intros w.
    exists {| Std.std := {| Traced.kitLogger := FilterLogger JSONLogger level.AllowInfo;
                            Traced.span := None |} |}.
    split; [reflexivity|]. split.
    + exact (Handle_new "info" w w _ eq_refl).
    + intros [] keyvals; reflexivity.
  - intros w name Henv.
    unfold Traced.NewLoggerFromEnv, bind, Getenv, gets. rewrite Henv.
    destruct (NewLogger_returns name w) as (w' & Hret).
    eexists. exists w'. split; [exact Hret|].
    exact (Handle_new name w w' _ Hret).
  - intros w Henv.
    assert (Hret : Traced.NewLoggerFromEnv w =
                   Some ({| Traced.kitLogger := FilterLogger JSONLogger level.AllowAll;
                            Traced.span := None |},
                         emit (mkEntry (Some SevWarning)
                                 [VString "err";
                                  VError "no log-level passed, falling back to debug"])
                              w)).
    { unfold Traced.NewLoggerFromEnv, bind, Getenv, gets. rewrite Henv.
      reflexivity. }
    eexists. split; [exact Hret|]. split.
    + unfold Traced.NewLoggerFromEnv, bind, Getenv, gets in Hret.
      rewrite Henv in Hret.
      exact (Handle_new "" w _ _ Hret).
    + intros s keyvals. reflexivity.
Qed.

(** With LOG_LEVEL unset, [std] filters with "info" and the logger of
    [NewLoggerFromEnv] lets everything through. *)
Lemma default_logger_level_info_witness :
  exists l,
    Traced.NewLoggerFromEnv world0 =
      Some (l, emit (mkEntry (Some SevWarning)
                       [VString "err";
                        VError "no log-level passed, falling back to debug"])
                    world0)
    /\ Handle level.AllowAll [] l.
Proof.
  destruct (proj2 (proj2 default_logger_level_info) world0 eq_refl)
    as (l & Hret & Hh & _).
  exists l. split; [exact Hret | exact Hh].
Defined.

(** * Further properties of the code *)

(** ** Deriving handles *)

(** X1: [WithTrace] keeps the logger and takes the span of the context, also
    when the context has none: the span of the receiver is dropped.  The
    last [WithTrace] wins, and [WithTrace] and [With] can be applied in
    either order. *)
Theorem WithTrace_composes
  (l : Traced.Log) (ctx ctx' : Context) (keyvals : list value) :
  Traced.kitLogger (Traced.WithTrace l ctx) = Traced.kitLogger l
  /\ Traced.span (Traced.WithTrace l ctx) = SpanFromContext ctx
  /\ Traced.WithTrace (Traced.WithTrace l ctx) ctx' = Traced.WithTrace l ctx'
  /\ Traced.With (Traced.WithTrace l ctx) keyvals =
       Traced.WithTrace (Traced.With l keyvals) ctx.
Proof.
  unfold Traced.WithTrace, Traced.With.
  destruct (SpanFromContext ctx), (SpanFromContext ctx'), keyvals;
    repeat split; reflexivity.
Qed.

Lemma fill_missing_app_even (a b : list value) :
  Nat.even (length a) = true ->
  kitlog.fill_missing (a ++ b) = a ++ kitlog.fill_missing b.
Proof.
  intros Ha. unfold kitlog.fill_missing.
  rewrite length_app, Nat.odd_add, <- (Nat.negb_even (length a)), Ha. simpl.
  destruct (Nat.odd (length b)); [now rewrite app_assoc | reflexivity].
Qed.

Lemma fill_missing_even (a : list value) :
  Nat.even (length a) = true -> kitlog.fill_missing a = a.
Proof.
  intros Ha. unfold kitlog.fill_missing.
  now rewrite <- Nat.negb_even, Ha.
Qed.

Lemma kitlog_With_With (k : Logger) (a b : list value) :
  Nat.even (length a) = true ->
  kitlog.With (kitlog.With k a) b = kitlog.With k (a ++ b).
Proof.
  intros Ha.
  destruct a as [|x a]; [reflexivity|].
  destruct b as [|y b].
  - rewrite app_nil_r. reflexivity.
  - unfold kitlog.With.
    change ((x :: a) ++ y :: b) with (x :: (a ++ y :: b)).
    cbv beta iota zeta.
    change (x :: (a ++ y :: b)) with ((x :: a) ++ y :: b).
    rewrite (fill_missing_app_even (x :: a) (y :: b) Ha),
      (fill_missing_even (x :: a) Ha).
    destruct k; try reflexivity.
    now rewrite <- app_assoc.
Qed.

(** X2: Two [With] in a row, the first with complete pairs, are one [With] of
    the concatenated key/values: the handles are the same, logger and
    span. *)
Theorem With_With (l : Traced.Log) (a b : list value) :
  Nat.even (length a) = true ->
  Traced.With (Traced.With l a) b = Traced.With l (a ++ b).
Proof.
  intros Ha. destruct l as [k sp].
  destruct a as [|x a]; [reflexivity|].
  destruct b as [|y b].
  - rewrite app_nil_r. reflexivity.
  - unfold Traced.With.
    change (length ((x :: a) ++ y :: b) =? 0)%nat with false.
    change (length (y :: b) =? 0)%nat with false.
    change (length (x :: a) =? 0)%nat with false.
    cbv beta iota. simpl Traced.kitLogger. simpl Traced.span. f_equal.
    exact (kitlog_With_With k (x :: a) (y :: b) Ha).
Qed.

Lemma With_With_witness :
  Traced.With
    (Traced.With {| Traced.kitLogger := FilterLogger JSONLogger level.AllowInfo;
                    Traced.span := Some 2 |}
                 [VString "svc"; VString "auth"])
    [VString "req"; VInt 9] =
  {| Traced.kitLogger :=
       WithLogger (FilterLogger JSONLogger level.AllowInfo)
                  [VString "svc"; VString "auth"; VString "req"; VInt 9];
     Traced.span := Some 2 |}.
Proof.
  apply (With_With
           {| Traced.kitLogger := FilterLogger JSONLogger level.AllowInfo;
              Traced.span := Some 2 |}
           [VString "svc"; VString "auth"] [VString "req"; VInt 9]).
  reflexivity.
Defined.

(** ** The message pair and the pairing of the key/values *)

(** X3: The message pair goes in front as one complete pair, so the key/values
    of the caller are paired as they were given, and the length of the
    record has the parity of the length of the key/values. *)
Theorem mergeKeyValues_keeps_pairing
  (l : Traced.Log) (message : string) (keyvals : list value) :
  complete_pairs (Traced.mergeKeyValues l message keyvals) =
    (if String.eqb message "" then [] else [(VString "message", VString message)])
    ++ complete_pairs keyvals
  /\ length (Traced.mergeKeyValues l message keyvals) =
       (if String.eqb message "" then 0 else 2) + length keyvals
  /\ Nat.even (length (Traced.mergeKeyValues l message keyvals)) =
       Nat.even (length keyvals).
Proof.
  unfold Traced.mergeKeyValues, MessageKey.
  destruct message; repeat split; reflexivity.
Qed.

(** ** Level names *)

Lemma lower_byte_idempotent (c : ascii) : lower_byte (lower_byte c) = lower_byte c.
Proof.
  destruct c as [[] [] [] [] [] [] [] []]; reflexivity.
Qed.

Lemma ToLower_String_ascii (c : ascii) (rest : string) :
  is_ascii_byte c = true ->
  ToLower (String c rest) = String (lower_byte c) (ToLower rest).
Proof.
  intros Hc. rewrite ToLower_String.
  assert (H1 : Ascii.eqb c "196"%char = false)
    by (apply Ascii.eqb_neq; intros ->; discriminate).
  assert (H2 : Ascii.eqb c "226"%char = false)
    by (apply Ascii.eqb_neq; intros ->; discriminate).
  now rewrite H1, H2.
Qed.

Lemma lower_byte_ascii (c : ascii) :
  is_ascii_byte c = true -> is_ascii_byte (lower_byte c) = true.
Proof.
  intros H. destruct c as [[] [] [] [] [] [] [] []];
    first [reflexivity | discriminate H].
Qed.

Lemma ToLower_isASCII (s : string) :
  isASCII s = true -> isASCII (ToLower s) = true.
Proof.
  induction s as [|c s IH]; intros H; [reflexivity|].
  cbn [isASCII] in H. apply andb_true_iff in H. destruct H as [Hc Hs].
  rewrite (ToLower_String_ascii c s Hc). cbn [isASCII].
  now rewrite (lower_byte_ascii c Hc), (IH Hs).
Qed.

Lemma ToLower_idempotent_ascii (s : string) :
  isASCII s = true -> ToLower (ToLower s) = ToLower s.
Proof.
  induction s as [|c s IH]; intros H; [reflexivity|].
  cbn [isASCII] in H. apply andb_true_iff in H. destruct H as [Hc Hs].
  rewrite (ToLower_String_ascii c s Hc).
  rewrite (ToLower_String_ascii _ _ (lower_byte_ascii c Hc)).
  now rewrite lower_byte_idempotent, (IH Hs).
Qed.

Lemma ToLower_length_ascii (s : string) :
  isASCII s = true -> String.length (ToLower s) = String.length s.
Proof.
  induction s as [|c s IH]; intros H; [reflexivity|].
  cbn [isASCII] in H. apply andb_true_iff in H. destruct H as [Hc Hs].
  rewrite (ToLower_String_ascii c s Hc). simpl. now rewrite (IH Hs).
Qed.

(** X4: On a string of ASCII bytes the resolver does not tell a name from
    its lower-case form, and it resolves without error only strings of 4,
    5 or 7 bytes: a name with a space or a newline around it falls back to
    "allow all". *)
Theorem evaluateLogLevel_case_and_length (logLevel : string) :
  isASCII logLevel = true ->
  Traced.evaluateLogLevel (ToLower logLevel) = Traced.evaluateLogLevel logLevel
  /\ Plain.evaluateLogLevel (ToLower logLevel) = Plain.evaluateLogLevel logLevel
  /\ (snd (Traced.evaluateLogLevel logLevel) = None ->
      String.length logLevel = 4 \/ String.length logLevel = 5
      \/ String.length logLevel = 7).
Proof.
  intros Hs.
  unfold Traced.evaluateLogLevel, Plain.evaluateLogLevel.
  rewrite (ToLower_idempotent_ascii logLevel Hs).
  split; [reflexivity|]. split; [reflexivity|].
  rewrite <- (ToLower_length_ascii logLevel Hs).
  unfold LevelDebug, LevelInfo, LevelWarning, LevelError.
  destruct (String.eqb_spec (ToLower logLevel) "debug") as [->|_]; [simpl; auto|].
  destruct (String.eqb_spec (ToLower logLevel) "info") as [->|_]; [simpl; auto|].
  destruct (String.eqb_spec (ToLower logLevel) "warning") as [->|_]; [simpl; auto|].
  destruct (String.eqb_spec (ToLower logLevel) "error") as [->|_]; [simpl; auto|].
  simpl. discriminate.
Qed.

Lemma evaluateLogLevel_case_and_length_witness :
  String.length "Info" = 4 \/ String.length "Info" = 5 \/ String.length "Info" = 7.
Proof.
  apply (proj2 (proj2 (evaluateLogLevel_case_and_length "Info" eq_refl))).
  reflexivity.
Defined.

(** Every filter the resolver returns is one of five, and all of them
    accept Error. *)
Lemma evaluateLogLevel_cases (logLevel : string) :
  Traced.evaluateLogLevel logLevel = (level.AllowDebug, None)
  \/ Traced.evaluateLogLevel logLevel = (level.AllowInfo, None)
  \/ Traced.evaluateLogLevel logLevel = (level.AllowWarn, None)
  \/ Traced.evaluateLogLevel logLevel = (level.AllowError, None)
  \/ Traced.evaluateLogLevel logLevel =
       (level.AllowAll, Some "no log-level passed, falling back to debug").
Proof.
  unfold Traced.evaluateLogLevel.
  destruct (String.eqb (ToLower logLevel) LevelDebug); [auto|].
  destruct (String.eqb (ToLower logLevel) LevelInfo); [auto|].
  destruct (String.eqb (ToLower logLevel) LevelWarning); [auto|].
  destruct (String.eqb (ToLower logLevel) LevelError); [auto 6|].
  auto 6.
Qed.

Lemma Plain_evaluateLogLevel_fst (logLevel : string) :
  Plain.evaluateLogLevel logLevel = fst (Traced.evaluateLogLevel logLevel).
Proof.
  unfold Traced.evaluateLogLevel, Plain.evaluateLogLevel.
  destruct (String.eqb (ToLower logLevel) LevelDebug); [reflexivity|].
  destruct (String.eqb (ToLower logLevel) LevelInfo); [reflexivity|].
  destruct (String.eqb (ToLower logLevel) LevelWarning); [reflexivity|].
  destruct (String.eqb (ToLower logLevel) LevelError); reflexivity.
Qed.

(** ** Construction *)

(** X5: [NewLogger] returns a handle without span whose logger is the JSON
    logger behind the filter of the level name.  For a name the resolver
    knows it writes nothing; for any other name it writes one Warning
    record, the pair "err" and the error, without a message pair, and that
    record always gets through, the filter being "allow all". *)
Theorem NewLogger_effect (logLevel : string) (w : World) :
  Traced.NewLogger logLevel w =
    Some ({| Traced.kitLogger :=
               FilterLogger JSONLogger (fst (Traced.evaluateLogLevel logLevel));
             Traced.span := None |},
          match snd (Traced.evaluateLogLevel logLevel) with
          | Some e => emit (mkEntry (Some SevWarning) [VString "err"; VError e]) w
          | None => w
          end).
Proof.
  unfold Traced.NewLogger.
  destruct (evaluateLogLevel_cases logLevel) as [E|[E|[E|[E|E]]]];
    rewrite E; reflexivity.
Qed.

(** ** Tracing *)

Lemma complete_pairs_nth (keyvals : list value) :
  forall j k v,
    nth_error keyvals (2 * j) = Some k ->
    nth_error keyvals (2 * j + 1) = Some v ->
    nth_error (complete_pairs keyvals) j = Some (k, v).
Proof.
  induction keyvals as [| x | x y rest IH] using pairs_ind; intros j k v Hk Hv.
  - destruct j; discriminate.
  - destruct j as [|j]; [discriminate|].
    replace (2 * S j) with (S (S (2 * j))) in Hk by lia.
    simpl in Hk. destruct (2 * j); discriminate.
  - destruct j as [|j].
    + simpl in Hk, Hv. inversion Hk; inversion Hv; subst. reflexivity.
    + replace (2 * S j) with (S (S (2 * j))) in Hk by lia.
      replace (2 * S j + 1) with (S (S (2 * j + 1))) in Hv by lia.
      simpl in Hk, Hv. simpl. now apply IH.
Qed.

(** X6: The loop of [handleTrace] returns for every sequence, changes nothing
    but the span, and records one tag for each two elements: tag number
    [j] is made of the string forms of elements [2j] and [2j+1]. *)
Theorem tagLoop_tags_by_index (sp : Span) (keyvals : list value) (w : World) :
  exists evs,
    Traced.tagLoop sp keyvals 0 w = Some (tt, add_spans evs w)
    /\ length evs = Nat.div2 (length keyvals)
    /\ (forall j k v,
           nth_error keyvals (2 * j) = Some k ->
           nth_error keyvals (2 * j + 1) = Some v ->
           nth_error evs j = Some (sp, Tag (Sprint k) (Sprint v))).
Proof.
  exists (tag_events sp keyvals).
  split; [apply (tagLoop_tags sp keyvals 0 w)|]. split.
  - unfold tag_events. rewrite length_map. apply complete_pairs_length.
  - intros j k v Hk Hv. unfold tag_events.
    rewrite nth_error_map, (complete_pairs_nth keyvals j k v Hk Hv).
    reflexivity.
Qed.

Lemma tagLoop_tags_by_index_witness :
  exists evs,
    Traced.tagLoop 7 [VString "user"; VInt 42; VString "dangling"] 0 world0 =
      Some (tt, add_spans evs world0)
    /\ nth_error evs 0 = Some (7, Tag "user" "42").
Proof.
  destruct (tagLoop_tags_by_index 7 [VString "user"; VInt 42; VString "dangling"]
              world0) as (evs & Hrun & _ & Hnth).
  exists evs. split; [exact Hrun|].
  exact (Hnth 0 (VString "user") (VInt 42) eq_refl eq_refl).
Defined.

(** X7: [Debug] leaves the span alone: on a handle with a span it does what it
    does on the same handle without one, while [Info], [Warning] and
    [Error] with a message annotate the span. *)
Theorem Debug_never_enriches
  (k : Logger) (sp : Span) (message : string) (keyvals : list value) (w : World) :
  Traced.Debug {| Traced.kitLogger := k; Traced.span := Some sp |} message keyvals w =
    Traced.Debug {| Traced.kitLogger := k; Traced.span := None |} message keyvals w
  /\ (exists w',
         Traced.Debug {| Traced.kitLogger := k; Traced.span := Some sp |}
                      message keyvals w = Some (tt, w')
         /\ spans w' = spans w)
  /\ (forall s c rest,
         enriches s = true ->
         message = String c rest ->
         exists w',
           severity_call s {| Traced.kitLogger := k; Traced.span := Some sp |}
                         message keyvals w = Some (tt, w')
           /\ spans w' = spans w ++ (sp, Annotate (clock w) message)
                                    :: tag_events sp keyvals).
Proof.
  split; [reflexivity|]. split.
  - destruct (severity_call_stdout SevDebug
                {| Traced.kitLogger := k; Traced.span := Some sp |}
                message keyvals w) as (w' & Hcall & _ & Hsp & _).
    exists w'. split; [exact Hcall|]. simpl in Hsp. now rewrite app_nil_r in Hsp.
  - intros s c rest Hs ->.
    destruct (severity_call_stdout s
                {| Traced.kitLogger := k; Traced.span := Some sp |}
                (String c rest) keyvals w) as (w' & Hcall & _ & Hsp & _).
    exists w'. split; [exact Hcall|]. rewrite Hsp, Hs. reflexivity.
Qed.

Lemma Debug_never_enriches_witness :
  exists w',
    Traced.Warning {| Traced.kitLogger := JSONLogger; Traced.span := Some 3 |}
                   "disk full" [] world0 = Some (tt, w')
    /\ spans w' = [(3, Annotate 0 "disk full")].
Proof.
  destruct (proj2 (proj2 (Debug_never_enriches JSONLogger 3 "disk full" [] world0))
              SevWarning "d"%char "isk full" eq_refl eq_refl)
    as (w' & Hcall & Hsp).
  exists w'. split; [exact Hcall | exact Hsp].
Defined.

(** X8: The span is enriched before the filter is asked: a record the filter
    discards writes nothing and still annotates and tags the span. *)
Theorem enrichment_ignores_filter
  (o : level.Option) (bound : list value) (l : Traced.Log) (sp : Span)
  (s : Severity) (message : string) (keyvals : list value) (w : World) :
  Handle o bound l ->
  Traced.span l = Some sp ->
  enriches s = true ->
  level.accepts o s = false ->
  exists w',
    severity_call s l message keyvals w = Some (tt, w')
    /\ stdout w' = stdout w
    /\ spans w' =
         spans w
         ++ (if String.eqb message "" then [] else [(sp, Annotate (clock w) message)])
         ++ tag_events sp keyvals.
Proof.
  intros H Hsp Hs Hrej.
  destruct (severity_call_stdout s l message keyvals w)
    as (w' & Hcall & Hout & Hspans & _).
  exists w'. split; [exact Hcall|]. split.
  - rewrite Hout, (Handle_written o bound l H). simpl. rewrite Hrej.
    apply app_nil_r.
  - rewrite Hspans, Hs. unfold trace_events. rewrite Hsp.
    destruct (String.eqb message ""); reflexivity.
Qed.

Lemma enrichment_ignores_filter_witness :
  exists w',
    Traced.Info
      (Traced.WithTrace
         {| Traced.kitLogger := FilterLogger JSONLogger level.AllowError;
            Traced.span := None |}
         (mkContext (Some 7)))
      "cache miss" [VString "key"; VInt 12] world0 = Some (tt, w')
    /\ stdout w' = []
    /\ spans w' = [(7, Annotate 0 "cache miss"); (7, Tag "key" "12")].
Proof.
  destruct (enrichment_ignores_filter
              level.AllowError [] _ 7 SevInfo "cache miss"
              [VString "key"; VInt 12] world0
              (Handle_trace _ _ _ (mkContext (Some 7))
                 (Handle_new "error" world0 world0 _ eq_refl))
              eq_refl eq_refl eq_refl)
    as (w' & Hcall & Hout & Hspans).
  exists w'. split; [exact Hcall|]. split; [exact Hout | exact Hspans].
Defined.

(** X9: [Log] on a handle with a span tags the complete pairs and records no
    annotation, whatever the key/values are. *)
Theorem Log_tags_without_annotation
  (k : Logger) (sp : Span) (keyvals : list value) (w : World) :
  exists w',
    Traced.Log_Log {| Traced.kitLogger := k; Traced.span := Some sp |} keyvals w =
      Some (tt, w')
    /\ spans w' = spans w ++ tag_events sp keyvals
    /\ length (tag_events sp keyvals) = Nat.div2 (length keyvals)
    /\ (forall t text, ~ In (sp, Annotate t text) (tag_events sp keyvals)).
Proof.
  unfold Traced.Log_Log, bind, kitlog.Log, modify.
  rewrite handleTrace_events. eexists. split; [reflexivity|].
  destruct (deliver_frame k None keyvals
              (add_spans (trace_events {| Traced.kitLogger := k;
                                          Traced.span := Some sp |}
                                       "" keyvals (clock w)) w))
    as (_ & Hs & _).
  simpl Traced.kitLogger. rewrite Hs. split; [reflexivity|]. split.
  - unfold tag_events. rewrite length_map. apply complete_pairs_length.
  - intros t text Hin. unfold tag_events in Hin.
    apply in_map_iff in Hin. destruct Hin as (kv & E & _). discriminate.
Qed.

(** ** The facade of [src/log.go] *)

(** X10: In [src/log.go] a severity method on the logger of [NewLogger] writes
    the message pair and the key/values when the filter of the level name
    accepts the severity, and nothing otherwise; it touches nothing else
    of the world. *)
Theorem Plain_severity_filtering
  (logLevel : string) (s : Severity) (message : string) (keyvals : list value)
  (w : World) :
  plain_call s (Plain.NewLogger logLevel) message keyvals w =
    Some (tt,
          if level.accepts (Plain.evaluateLogLevel logLevel) s
          then emit (mkEntry (Some s)
                             ((match message with
                               | EmptyString => []
                               | String _ _ => [VString "message"; VString message]
                               end) ++ keyvals)) w
          else w)
  /\ (level.accepts (Plain.evaluateLogLevel logLevel) s = true <->
      exists m,
        minimum_severity (Plain.evaluateLogLevel logLevel) = Some m
        /\ rank m <= rank s).
Proof.
  split; [|apply accepts_minimum].
  destruct s; simpl;
    unfold Plain.Debug, Plain.Info, Plain.Warning, Plain.Error, kitlog.Log, modify;
    simpl;
    destruct (level.accepts (Plain.evaluateLogLevel logLevel) _);
    destruct message; reflexivity.
Qed.

(** X11: On the same logger, a severity method of [src/log.go] and the one of
    the tracing variant on a handle without span leave the same world; and
    [NewLogger] of the tracing variant builds the logger [NewLogger] of
    [src/log.go] builds. *)
Theorem Plain_agrees_with_Traced
  (k : Logger) (s : Severity) (message logLevel : string) (keyvals : list value)
  (w : World) :
  plain_call s {| Plain.kitLogger := k |} message keyvals w =
    severity_call s {| Traced.kitLogger := k; Traced.span := None |}
                  message keyvals w
  /\ exists w',
       Traced.NewLogger logLevel w =
         Some ({| Traced.kitLogger := Plain.kitLogger (Plain.NewLogger logLevel);
                  Traced.span := None |}, w').
Proof.
  split.
  - destruct s; reflexivity.
  - destruct (NewLogger_returns logLevel w) as (w' & Hret).
    exists w'. rewrite Hret. unfold Plain.NewLogger. simpl.
    now rewrite Plain_evaluateLogLevel_fst.
Qed.

(** ** No level name silences Error *)

Lemma accepts_Error_always (logLevel : string) :
  level.accepts (fst (Traced.evaluateLogLevel logLevel)) SevError = true.
Proof.
  destruct (evaluateLogLevel_cases logLevel) as [E|[E|[E|[E|E]]]];
    rewrite E; reflexivity.
Qed.

(** X12: Whatever the level name a logger was made with, [Error] through it, or
    through a handle derived from it, writes its record; and the smaller
    the severity the filter accepts, the more it accepts above. *)
Theorem Error_always_written
  (logLevel : string) (bound : list value) (l : Traced.Log)
  (message : string) (keyvals : list value) (w : World) :
  Handle (fst (Traced.evaluateLogLevel logLevel)) bound l ->
  (exists w',
      Traced.Error l message keyvals w = Some (tt, w')
      /\ stdout w' =
           stdout w ++
           [mkEntry (Some SevError)
                    (bound ++ Traced.mergeKeyValues l message keyvals)])
  /\ (forall s s',
         level.accepts (fst (Traced.evaluateLogLevel logLevel)) s = true ->
         rank s <= rank s' ->
         level.accepts (fst (Traced.evaluateLogLevel logLevel)) s' = true).
Proof.
  intros H. split.
  - destruct (severity_call_stdout SevError l message keyvals w)
      as (w' & Hcall & Hout & _).
    exists w'. split; [exact Hcall|].
    rewrite Hout, (Handle_written _ bound l H). simpl.
    now rewrite accepts_Error_always.
  - intros s s' Hacc Hle.
    destruct (fst (Traced.evaluateLogLevel logLevel)) as [m| |]; simpl in *;
      [|reflexivity|discriminate].
    apply Nat.leb_le. apply Nat.leb_le in Hacc. lia.
Qed.

Lemma Error_always_written_witness :
  exists w',
    Traced.Error
      (Traced.With {| Traced.kitLogger := FilterLogger JSONLogger level.AllowError;
                      Traced.span := None |}
                   [VString "svc"; VString "auth"])
      "denied" [] world0 = Some (tt, w')
    /\ stdout w' =
         [mkEntry (Some SevError)
                  [VString "svc"; VString "auth"; VString "message"; VString "denied"]].
Proof.
  destruct (proj1 (Error_always_written "ERROR" _ _ "denied" [] world0
                     (Handle_with _ _ [VString "svc"; VString "auth"] _
                        (Handle_new "ERROR" world0 world0 _ eq_refl))))
    as (w' & Hcall & Hout).
  exists w'. split; [exact Hcall | exact Hout].
Defined.

(** ** The package-level functions *)

Lemma add_stdout_nil (w : World) : add_stdout [] w = w.
Proof. destruct w. unfold add_stdout. simpl. now rewrite app_nil_r. Qed.

Lemma add_stdout_app (a b : list Entry) (w : World) :
  add_stdout b (add_stdout a w) = add_stdout (a ++ b) w.
Proof. unfold add_stdout. simpl. now rewrite app_assoc. Qed.

Lemma std_call_info (c : StdCall) (w : World) :
  std_call c {| Std.std := {| Traced.kitLogger :=
                                FilterLogger JSONLogger level.AllowInfo;
                              Traced.span := None |} |} w =
    Some ({| Std.std := {| Traced.kitLogger :=
                             FilterLogger JSONLogger level.AllowInfo;
                           Traced.span := None |} |},
          add_stdout (std_call_record c) w).
Proof.
  destruct c as [lvl | s message keyvals].
  - simpl. now rewrite add_stdout_nil.
  - destruct s; simpl;
      unfold Std.Debug, Std.Info, Std.Warning, Std.Error, bind,
        Traced.Debug, Traced.Info, Traced.Warning, Traced.Error,
        Traced.handleTrace, kitlog.Log, modify, ret; simpl;
      rewrite ?add_stdout_nil; destruct message; reflexivity.
Qed.

(** X13: Any program made of calls to the package-level functions, started
    after the package is initialised, returns; it leaves [std], the spans,
    the environment and the clock as they were, and writes, in the order of
    the calls, the records of the [Info], [Warning] and [Error] calls and
    nothing for [Debug] and [SetLevel], however many [SetLevel] it makes. *)
Theorem std_run_output
  (w0 w1 : World) (g : Std.Package) (cs : list StdCall) (w : World) :
  Std.init w0 = Some (g, w1) ->
  std_run cs g w = Some (g, add_stdout (flat_map std_call_record cs) w)
  /\ w1 = w0.
Proof.
  intros Hinit. unfold Std.init, bind in Hinit.
  rewrite NewLogger_effect in Hinit. simpl in Hinit.
  inversion Hinit; subst. clear Hinit. split; [|reflexivity].
  revert w. induction cs as [|c cs IH]; intros w; simpl.
  - unfold ret. now rewrite add_stdout_nil.
  - unfold bind. rewrite std_call_info.
    change (Traced.evaluateLogLevel "info") with (level.AllowInfo, @None string) in IH.
    simpl in IH. rewrite IH, add_stdout_app. reflexivity.
Qed.

Lemma std_run_output_witness :
  std_run [CallLog SevDebug "boot" []; CallSetLevel "debug";
           CallLog SevDebug "probe" []; CallLog SevError "down" [VString "code"; VInt 7]]
          {| Std.std := {| Traced.kitLogger := FilterLogger JSONLogger level.AllowInfo;
                           Traced.span := None |} |}
          world0 =
    Some ({| Std.std := {| Traced.kitLogger := FilterLogger JSONLogger level.AllowInfo;
                           Traced.span := None |} |},
          add_stdout [mkEntry (Some SevError)
                              [VString "message"; VString "down";
                               VString "code"; VInt 7]] world0).
Proof.
  exact (proj1 (std_run_output world0 world0 _ _ world0 eq_refl)).
Defined.

(** ** The example program *)

(** X14: The example program returns in every environment.  Against the package
    with tracing it writes a warning when LOG_LEVEL holds no level name
    (unset included), then those of its four records, Debug, Info, Warning
    and Error in that order, that the filter of LOG_LEVEL accepts; against
    [src/log.go] it writes the same records without the warning.  It
    records nothing on any span. *)
Theorem main_output (w : World) :
  (exists w',
      Main.main w = Some (tt, w')
      /\ stdout w' =
           stdout w
           ++ (match snd (Traced.evaluateLogLevel (env_value w EnvironmentVariable)) with
               | Some e => [mkEntry (Some SevWarning) [VString "err"; VError e]]
               | None => []
               end)
           ++ filter (entry_accepted
                        (fst (Traced.evaluateLogLevel
                                (env_value w EnvironmentVariable))))
                     main_records
      /\ spans w' = spans w)
  /\ (exists w',
         MainPlain.main w = Some (tt, w')
         /\ stdout w' =
              stdout w
              ++ filter (entry_accepted
                           (Plain.evaluateLogLevel (env_value w EnvironmentVariable)))
                        main_records
         /\ spans w' = spans w).
Proof.
  split.
  - unfold Main.main, Traced.NewLoggerFromEnv, bind, Getenv, gets.
    fold (env_value w EnvironmentVariable).
    rewrite NewLogger_effect.
    destruct (evaluateLogLevel_cases (env_value w EnvironmentVariable))
      as [E|[E|[E|[E|E]]]];
      rewrite E; eexists; (split; [reflexivity|]); simpl;
      rewrite <- ?app_assoc; simpl; rewrite ?app_nil_r; split; reflexivity.
  - unfold MainPlain.main, Plain.NewLoggerFromEnv, bind, Getenv, gets, ret.
    fold (env_value w EnvironmentVariable).
    unfold Plain.NewLogger.
    rewrite Plain_evaluateLogLevel_fst.
    destruct (evaluateLogLevel_cases (env_value w EnvironmentVariable))
      as [E|[E|[E|[E|E]]]];
      rewrite E; eexists; (split; [reflexivity|]); simpl;
      rewrite <- ?app_assoc; simpl; rewrite ?app_nil_r; split; reflexivity.
Qed.
